(** * Error models of [stochastic_vol_model_err.py]

    A shallow embedding of the two NumPyro error models, [homoscedastic]
    and [stochastic_volatility], and the properties of their traces.

    A model is a program over the primitives of the host inference engine
    ([numpyro.sample], [numpyro.deterministic], [scan]); it is run under a
    handler that answers every sample statement and records the sites in a
    trace.

    The models are embedded twice.  The first embedding takes the numbers as
    real numbers ([R]) and carries the properties of the traces that do not
    depend on rounding.  The second, the module [F32], takes them as the
    float32 numbers the source computes with; it carries the properties that
    rounding, underflow and division by zero decide. *)

From Stdlib Require Import Reals Lra Lia String List Arith ZArith.
From Stdlib Require Import SpecFloat.
Import ListNotations.

Open Scope string_scope.
Open Scope list_scope.
Open Scope R_scope.

(** ** Distributions and sites *)

(** The distribution families the module builds ([numpyro.distributions]),
    with the parameters in the order of the constructors' arguments:
    [Gamma concentration rate], [InverseGamma concentration scale],
    [Beta concentration1 concentration0], [Normal loc scale]. *)
Inductive Dist : Type :=
| Gamma (concentration rate : R)
| InverseGamma (concentration scale : R)
| Beta (concentration1 concentration0 : R)
| Normal (loc scale : R).

(** The [type] entry of a site of the trace. *)
Inductive SiteType : Type :=
| sample_type
| deterministic_type.

(** A site of the trace: a sample statement with its name, its distribution
    and the value drawn for it, or a deterministic statement with its name
    and the array it was given. *)
Inductive Site : Type :=
| SampleSite (name : string) (fn : Dist) (value : R)
| DeterministicSite (name : string) (value : list R).

Definition site_name (s : Site) : string :=
  match s with
  | SampleSite name _ _ => name
  | DeterministicSite name _ => name
  end.

Definition site_type (s : Site) : SiteType :=
  match s with
  | SampleSite _ _ _ => sample_type
  | DeterministicSite _ _ => deterministic_type
  end.

(** What a statement registers with the engine: the name and the type of
    its site. *)
Definition site_key (s : Site) : string * SiteType :=
  (site_name s, site_type s).

(** The values drawn at the sample sites called [name], in the order of the
    trace. *)
Fixpoint sample_values (name : string) (tr : list Site) : list R :=
  match tr with
  | [] => []
  | SampleSite n _ v :: tr' =>
      if String.eqb n name then v :: sample_values name tr'
      else sample_values name tr'
  | DeterministicSite _ _ :: tr' => sample_values name tr'
  end.

(** The value and distribution recorded for the sample site called [name]
    (the first one, when the name is used more than once). *)
Fixpoint lookup_sample (name : string) (tr : list Site) : option (Dist * R) :=
  match tr with
  | [] => None
  | SampleSite n d v :: tr' =>
      if String.eqb n name then Some (d, v) else lookup_sample name tr'
  | DeterministicSite _ _ :: tr' => lookup_sample name tr'
  end.

(** The array recorded for the deterministic site called [name]. *)
Fixpoint lookup_deterministic (name : string) (tr : list Site)
  : option (list R) :=
  match tr with
  | [] => None
  | DeterministicSite n v :: tr' =>
      if String.eqb n name then Some v else lookup_deterministic name tr'
  | SampleSite _ _ _ :: tr' => lookup_deterministic name tr'
  end.

(** ** Model programs *)

(** Modelled from the spec: the primitives of the host engine, which is not
    part of the repository.  A model is a tree of the statements it makes:
    a named sample statement hands the drawn value to the rest of the model,
    a named deterministic statement registers a computed array and goes on. *)
Inductive Model (A : Type) : Type :=
| Ret (a : A)
| SampleK (name : string) (fn : Dist) (k : R -> Model A)
| DeterministicK (name : string) (value : list R) (k : Model A).

Arguments Ret {A} a.
Arguments SampleK {A} name fn k.
Arguments DeterministicK {A} name value k.

Fixpoint bind {A B : Type} (m : Model A) (f : A -> Model B) : Model B :=
  match m with
  | Ret a => f a
  | SampleK name fn k => SampleK name fn (fun v => bind (k v) f)
  | DeterministicK name value k => DeterministicK name value (bind k f)
  end.

Notation "x <- m ;; k" := (bind m (fun x => k))
  (at level 61, m at next level, right associativity).
Notation "' pat <- m ;; k" := (bind m (fun x => match x with pat => k end))
  (at level 61, pat pattern, m at next level, right associativity).

(** Modelled from the spec: [numpyro.sample name fn], the named-sample
    primitive; it returns the value the engine draws for the site. *)
Definition sample (name : string) (fn : Dist) : Model R :=
  SampleK name fn Ret.

(** Modelled from the spec: [numpyro.deterministic name value], the
    named-deterministic primitive; it registers [value] and returns it. *)
Definition deterministic (name : string) (value : list R) : Model (list R) :=
  DeterministicK name value (Ret value).

(** Modelled from the spec: [scan f init xs], the sequential-scan primitive;
    it runs the transition once per element of [xs], in order, threading the
    carry, and returns the last carry with the emitted values in order. *)
Fixpoint scan {C X Y : Type} (f : C -> X -> Model (C * Y)) (init : C)
  (xs : list X) : Model (C * list Y) :=
  match xs with
  | [] => Ret (init, [])
  | x :: xs' =>
      '(carry, y) <- f init x ;;
      '(last, ys) <- scan f carry xs' ;;
      Ret (last, y :: ys)
  end.

(** [jnp.zeros n], [jnp.sqrt] and [jnp.exp] on an array. *)
Definition jnp_zeros (n : nat) : list R := repeat 0 n.
Definition jnp_sqrt (x : R) : R := sqrt x.
Definition jnp_exp (a : list R) : list R := map exp a.

(** ** The error models *)

Definition homoscedastic : Model R :=
  let c_0 := 2.5 in
  let g_0 := 5 in
  let G_0 := 3.33 in
  C_0 <- sample "C_0" (Gamma g_0 G_0) ;;
  sigma2 <- sample "sigma2" (InverseGamma c_0 C_0) ;;
  Ret sigma2.

(** [sv_phi_trans = (sv_phi*2) - 1]. *)
Definition sv_phi_trans (sv_phi : R) : R := (sv_phi * 2) - 1.

(** The denominator [1 - sv_phi_trans**2] of the variance of [h_0]. *)
Definition stationary_denominator (sv_phi : R) : R :=
  1 - (sv_phi_trans sv_phi) ^ 2.

(** The distribution of [h_0]. *)
Definition h_0_dist (sv_phi sv_sigma2_eta sv_mu : R) : Dist :=
  Normal sv_mu (jnp_sqrt (sv_sigma2_eta / stationary_denominator sv_phi)).

(** The transition [sv_ht_scan], closed over the parameters of the model.
    The carry is the one-element tuple [(h_curr, )], here the number itself;
    the scanned element is not used. *)
Definition sv_ht_scan (sv_mu sv_phi_trans sv_sigma2_eta : R)
  (tcarry : R) (_ : R) : Model (R * R) :=
  let h_curr := tcarry in
  h_curr <- sample "h_t" (Normal (sv_mu + sv_phi_trans * (h_curr - sv_mu))
                                 (jnp_sqrt sv_sigma2_eta)) ;;
  let tcarry := h_curr in
  Ret (tcarry, h_curr).

Definition stochastic_volatility (n_timesteps : nat) : Model (list R) :=
  let b_mu := 0.0 in
  let a_phi := 5.0 in
  let b_phi := 1.5 in
  let B_mu := 1.0 in
  let B_sigma := 1.0 in
  sv_phi <- sample "sv_phi" (Beta a_phi b_phi) ;;
  let sv_phi_trans := sv_phi_trans sv_phi in
  sv_sigma2_eta <- sample "sv_sigma2_eta" (Gamma 0.5 (0.5 * B_sigma)) ;;
  sv_mu <- sample "sv_mu" (Normal b_mu (jnp_sqrt B_mu)) ;;
  h_0 <- sample "h_0" (h_0_dist sv_phi sv_sigma2_eta sv_mu) ;;
  let scan_vars := h_0 in
  '(_, h_t) <- scan (sv_ht_scan sv_mu sv_phi_trans sv_sigma2_eta)
                    scan_vars (jnp_zeros n_timesteps) ;;
  sigma2 <- deterministic "sigma2" (jnp_exp h_t) ;;
  Ret sigma2.

(** ** Running a model under a handler *)

(** Modelled from the spec: the inference context.  A handler answers a
    sample statement from its own state ([draw rng name fn] is the value
    and the next state); the host state is the handler's state and the
    trace of the sites registered so far. *)
Section Handler.

Variable Rng : Type.
Variable draw : Rng -> string -> Dist -> R * Rng.

Record HostState : Type := mkHost { rng : Rng; trace : list Site }.

Fixpoint run {A : Type} (m : Model A) (st : HostState) : A * HostState :=
  match m with
  | Ret a => (a, st)
  | SampleK name fn k =>
      let (v, rng') := draw (rng st) name fn in
      run (k v) (mkHost rng' (trace st ++ [SampleSite name fn v]))
  | DeterministicK name value k =>
      run k (mkHost (rng st) (trace st ++ [DeterministicSite name value]))
  end.

End Handler.

Arguments mkHost {Rng} rng trace.
Arguments rng {Rng} h.
Arguments trace {Rng} h.
Arguments run {Rng} draw {A} m st.

(** A run from an empty trace: the result and the sites of the model. *)
Definition exec {Rng A : Type} (draw : Rng -> string -> Dist -> R * Rng)
  (m : Model A) (s : Rng) : A * HostState Rng :=
  run draw m (mkHost s []).

Definition result_of {Rng A : Type} (draw : Rng -> string -> Dist -> R * Rng)
  (m : Model A) (s : Rng) : A :=
  fst (exec draw m s).

Definition trace_of {Rng A : Type} (draw : Rng -> string -> Dist -> R * Rng)
  (m : Model A) (s : Rng) : list Site :=
  trace (snd (exec draw m s)).

(** The value drawn at the sample site [name] of a trace ([0] when the trace
    has no such site). *)
Definition sample_value (name : string) (tr : list Site) : R :=
  match lookup_sample name tr with
  | Some (_, v) => v
  | None => 0
  end.

(** The sites of a trace registered under [name], in order. *)
Definition sites_named (name : string) (tr : list Site) : list Site :=
  filter (fun s => String.eqb (site_name s) name) tr.

(** The latent states [h_0, h_1, ..., h_T] of a trace of
    [stochastic_volatility]. *)
Definition h_states (tr : list Site) : list R :=
  sample_value "h_0" tr :: sample_values "h_t" tr.

(** Modelled from the spec: a run under a fixed pseudo-random seed.  The
    handler's state is the key; every sample statement splits it and draws
    from the distribution with the fresh half. *)
Section Seed.

Variable Key : Type.
Variable random_split : Key -> Key * Key.
Variable sampler : Key -> Dist -> R.

Definition seed (rng_key : Key) (name : string) (fn : Dist) : R * Key :=
  let (rng_key', rng_key_sample) := random_split rng_key in
  (sampler rng_key_sample fn, rng_key').

End Seed.

(** A key space to run the seed handler on: the keys are numbers, a key [k]
    splits into [2k+1] and [2k+2], and the sampler answers with the key. *)
Definition nat_split (k : nat) : nat * nat := (2 * k + 1, 2 * k + 2)%nat.
Definition nat_sampler (k : nat) (_ : Dist) : R := IZR (Z.of_nat k).

(** Two handlers to run the models on: one answers every sample statement
    with the same value, one counts the statements and answers the [k]-th
    with [k]. *)
Definition const_draw (v : R) (_ : unit) (_ : string) (_ : Dist) : R * unit :=
  (v, tt).

Definition count_draw (k : nat) (_ : string) (_ : Dist) : R * nat :=
  (IZR (Z.of_nat k), S k).

(** The sites of a chain of [h_t] statements that starts from the state [h]:
    every site draws from the normal distribution around the AR(1) mean of
    the state before it. *)
Inductive ar1_sites (sv_mu phi sv_sigma2_eta : R)
  : R -> list Site -> list R -> Prop :=
| ar1_nil h : ar1_sites sv_mu phi sv_sigma2_eta h [] []
| ar1_cons h v sites vs :
    ar1_sites sv_mu phi sv_sigma2_eta v sites vs ->
    ar1_sites sv_mu phi sv_sigma2_eta h
      (SampleSite "h_t" (Normal (sv_mu + phi * (h - sv_mu))
                                (jnp_sqrt sv_sigma2_eta)) v :: sites)
      (v :: vs).

(** ** The models in float32 arithmetic *)

(** The same models with the numbers of the source: JAX arrays of its
    default type float32 (binary32: 24 bits of precision, infinities at the
    exponent 128), with the IEEE operations of [SpecFloat].  The literals of
    the source are Python floats (binary64), converted when they meet an
    array. *)
Module F32.

Definition float32 : Type := spec_float.
Definition prec : Z := 24.
Definition emax : Z := 128.

Definition of_Z (z : Z) : float32 := binary_normalize prec emax z 0 false.

(** The Python float [num / den], a binary64 number. *)
Definition py_float (num den : Z) : spec_float :=
  SFdiv 53 1024 (binary_normalize 53 1024 num 0 false)
                (binary_normalize 53 1024 den 0 false).

(** The product of two Python floats. *)
Definition py_mul (x y : spec_float) : spec_float := SFmul 53 1024 x y.

(** A Python float as a float32 number. *)
Definition of_py (x : spec_float) : float32 :=
  match x with
  | S754_finite s m e => binary_normalize prec emax (cond_Zopp s (Zpos m)) e s
  | _ => x
  end.

Definition add (x y : float32) : float32 := SFadd prec emax x y.
Definition sub (x y : float32) : float32 := SFsub prec emax x y.
Definition mul (x y : float32) : float32 := SFmul prec emax x y.
Definition div (x y : float32) : float32 := SFdiv prec emax x y.
Definition ltb (x y : float32) : bool := SFltb x y.
Definition leb (x y : float32) : bool := SFleb x y.

Definition zero : float32 := S754_zero false.
Definition one : float32 := of_Z 1.
Definition two : float32 := of_Z 2.
Definition nan : float32 := S754_nan.

(** The real number a finite float stands for. *)
Definition to_R (x : float32) : R :=
  match x with
  | S754_finite s m e =>
      (if s then - IZR (Zpos m) else IZR (Zpos m)) * powerRZ 2 e
  | _ => 0%R
  end.

(** The integer nearest to a real number, the even one of two. *)
Definition rint (x : R) : Z :=
  let f := Int_part x in
  if Rlt_dec (x - IZR f) (1 / 2) then f
  else if Rlt_dec (1 / 2) (x - IZR f) then (f + 1)%Z
  else if Z.even f then f else (f + 1)%Z.

(** The binary exponent of a positive real: [2^mag2 x <= x < 2^(mag2 x + 1)]. *)
Definition mag2 (x : R) : Z := Int_part (ln x / ln 2).

(** The float32 number nearest to a positive real (ties to even, overflow to
    infinity): the mantissa is the nearest integer at the exponent of the
    format. *)
Definition round_pos (x : R) : float32 :=
  let e := fexp prec emax (mag2 x + 1) in
  binary_normalize prec emax (rint (x * powerRZ 2 (- e))) e false.

(** Modelled from the spec: the exponential of the host library on a float32
    number, the real exponential rounded to the nearest float32. *)
Definition exp (x : float32) : float32 :=
  match x with
  | S754_nan => S754_nan
  | S754_infinity false => S754_infinity false
  | S754_infinity true => S754_zero false
  | S754_zero _ => one
  | S754_finite _ _ _ => round_pos (Rtrigo_def.exp (to_R x))
  end.

(** [jnp.zeros n], [jnp.sqrt] and [jnp.exp] on an array. *)
Definition jnp_zeros (n : nat) : list float32 := repeat zero n.
Definition jnp_sqrt (x : float32) : float32 := SFsqrt prec emax x.
Definition jnp_exp (a : list float32) : list float32 := map exp a.

Inductive Dist : Type :=
| Gamma (concentration rate : float32)
| InverseGamma (concentration scale : float32)
| Beta (concentration1 concentration0 : float32)
| Normal (loc scale : float32).

Inductive Site : Type :=
| SampleSite (name : string) (fn : Dist) (value : float32)
| DeterministicSite (name : string) (value : list float32).

Fixpoint sample_values (name : string) (tr : list Site) : list float32 :=
  match tr with
  | [] => []
  | SampleSite n _ v :: tr' =>
      if String.eqb n name then v :: sample_values name tr'
      else sample_values name tr'
  | DeterministicSite _ _ :: tr' => sample_values name tr'
  end.

Fixpoint lookup_sample (name : string) (tr : list Site)
  : option (Dist * float32) :=
  match tr with
  | [] => None
  | SampleSite n d v :: tr' =>
      if String.eqb n name then Some (d, v) else lookup_sample name tr'
  | DeterministicSite _ _ :: tr' => lookup_sample name tr'
  end.

Definition sample_value (name : string) (tr : list Site) : float32 :=
  match lookup_sample name tr with
  | Some (_, v) => v
  | None => nan
  end.

(** Modelled from the spec: the primitives of the host engine, as for the
    models over the real numbers. *)
Inductive Model (A : Type) : Type :=
| Ret (a : A)
| SampleK (name : string) (fn : Dist) (k : float32 -> Model A)
| DeterministicK (name : string) (value : list float32) (k : Model A).

Arguments Ret {A} a.
Arguments SampleK {A} name fn k.
Arguments DeterministicK {A} name value k.

Fixpoint bind {A B : Type} (m : Model A) (f : A -> Model B) : Model B :=
  match m with
  | Ret a => f a
  | SampleK name fn k => SampleK name fn (fun v => bind (k v) f)
  | DeterministicK name value k => DeterministicK name value (bind k f)
  end.

Declare Scope f32_scope.
Notation "x <- m ;; k" := (bind m (fun x => k))
  (at level 61, m at next level, right associativity) : f32_scope.
Notation "' pat <- m ;; k" := (bind m (fun x => match x with pat => k end))
  (at level 61, pat pattern, m at next level, right associativity)
  : f32_scope.
Local Open Scope f32_scope.

Definition sample (name : string) (fn : Dist) : Model float32 :=
  SampleK name fn Ret.

Definition deterministic (name : string) (value : list float32)
  : Model (list float32) :=
  DeterministicK name value (Ret value).

Fixpoint scan {C X Y : Type} (f : C -> X -> Model (C * Y)) (init : C)
  (xs : list X) : Model (C * list Y) :=
  match xs with
  | [] => Ret (init, [])
  | x :: xs' =>
      '(carry, y) <- f init x ;;
      '(last, ys) <- scan f carry xs' ;;
      Ret (last, y :: ys)
  end.

Definition homoscedastic : Model float32 :=
  let c_0 := py_float 25 10 in
  let g_0 := 5%Z in
  let G_0 := py_float 333 100 in
  C_0 <- sample "C_0" (Gamma (of_Z g_0) (of_py G_0)) ;;
  sigma2 <- sample "sigma2" (InverseGamma (of_py c_0) C_0) ;;
  Ret sigma2.

(** [sv_phi_trans = (sv_phi*2) - 1]. *)
Definition sv_phi_trans (sv_phi : float32) : float32 :=
  sub (mul sv_phi two) one.

(** The denominator [1 - sv_phi_trans**2]; the square is a product. *)
Definition stationary_denominator (sv_phi : float32) : float32 :=
  sub one (mul (sv_phi_trans sv_phi) (sv_phi_trans sv_phi)).

(** The distribution of [h_0]. *)
Definition h_0_dist (sv_phi sv_sigma2_eta sv_mu : float32) : Dist :=
  Normal sv_mu (jnp_sqrt (div sv_sigma2_eta (stationary_denominator sv_phi))).

Definition sv_ht_scan (sv_mu sv_phi_trans sv_sigma2_eta : float32)
  (tcarry : float32) (_ : float32) : Model (float32 * float32) :=
  let h_curr := tcarry in
  h_curr <- sample "h_t"
              (Normal (add sv_mu (mul sv_phi_trans (sub h_curr sv_mu)))
                      (jnp_sqrt sv_sigma2_eta)) ;;
  let tcarry := h_curr in
  Ret (tcarry, h_curr).

Definition stochastic_volatility (n_timesteps : nat) : Model (list float32) :=
  let b_mu := py_float 0 1 in
  let a_phi := py_float 5 1 in
  let b_phi := py_float 15 10 in
  let B_mu := py_float 1 1 in
  let B_sigma := py_float 1 1 in
  sv_phi <- sample "sv_phi" (Beta (of_py a_phi) (of_py b_phi)) ;;
  let sv_phi_trans := sv_phi_trans sv_phi in
  sv_sigma2_eta <- sample "sv_sigma2_eta"
                     (Gamma (of_py (py_float 5 10))
                            (of_py (py_mul (py_float 5 10) B_sigma))) ;;
  sv_mu <- sample "sv_mu" (Normal (of_py b_mu) (jnp_sqrt (of_py B_mu))) ;;
  h_0 <- sample "h_0" (h_0_dist sv_phi sv_sigma2_eta sv_mu) ;;
  let scan_vars := h_0 in
  '(_, h_t) <- scan (sv_ht_scan sv_mu sv_phi_trans sv_sigma2_eta)
                    scan_vars (jnp_zeros n_timesteps) ;;
  sigma2 <- deterministic "sigma2" (jnp_exp h_t) ;;
  Ret sigma2.

Section Handler.

Variable Rng : Type.
Variable draw : Rng -> string -> Dist -> float32 * Rng.

Record HostState : Type := mkHost { rng : Rng; trace : list Site }.

Fixpoint run {A : Type} (m : Model A) (st : HostState) : A * HostState :=
  match m with
  | Ret a => (a, st)
  | SampleK name fn k =>
      let (v, rng') := draw (rng st) name fn in
      run (k v) (mkHost rng' (trace st ++ [SampleSite name fn v]))
  | DeterministicK name value k =>
      run k (mkHost (rng st) (trace st ++ [DeterministicSite name value]))
  end.

End Handler.

Arguments mkHost {Rng} rng trace.
Arguments rng {Rng} h.
Arguments trace {Rng} h.
Arguments run {Rng} draw {A} m st.

Definition exec {Rng A : Type} (draw : Rng -> string -> Dist -> float32 * Rng)
  (m : Model A) (s : Rng) : A * HostState Rng :=
  run draw m (mkHost s []).

Definition result_of {Rng A : Type}
  (draw : Rng -> string -> Dist -> float32 * Rng) (m : Model A) (s : Rng) : A :=
  fst (exec draw m s).

Definition trace_of {Rng A : Type}
  (draw : Rng -> string -> Dist -> float32 * Rng) (m : Model A) (s : Rng)
  : list Site :=
  trace (snd (exec draw m s)).

(** A handler that answers by the name of the site: [sv_phi] and [h_t] as
    given, [sv_sigma2_eta] with 1, [sv_mu] and [h_0] with 0, every other site
    with 1. *)
Definition table_draw (sv_phi h_t : float32) (_ : unit) (name : string)
  (_ : Dist) : float32 * unit :=
  (if String.eqb name "sv_phi" then sv_phi
   else if String.eqb name "h_t" then h_t
   else if String.eqb name "sv_mu" then zero
   else if String.eqb name "h_0" then zero
   else one, tt).

End F32.

(** ** Valid distributions and supported draws *)

(** Modelled from the spec: the parameters a distribution constructor of the
    host engine accepts, a strictly positive shape, rate and scale (the
    location of [Normal] is any number). *)
Definition dist_valid (fn : Dist) : Prop :=
  match fn with
  | Gamma concentration rate => 0 < concentration /\ 0 < rate
  | InverseGamma concentration scale => 0 < concentration /\ 0 < scale
  | Beta concentration1 concentration0 =>
      0 < concentration1 /\ 0 < concentration0
  | Normal _ scale => 0 < scale
  end.

(** Modelled from the spec: the support of a distribution, the positive
    numbers for [Gamma] and [InverseGamma], the open interval (0,1) for
    [Beta], every number for [Normal]. *)
Definition in_support (fn : Dist) (v : R) : Prop :=
  match fn with
  | Gamma _ _ => 0 < v
  | InverseGamma _ _ => 0 < v
  | Beta _ _ => 0 < v < 1
  | Normal _ _ => True
  end.

(** A sample site is sound when its distribution is valid and its value lies
    in the support; a deterministic site draws nothing. *)
Definition site_valid (s : Site) : Prop :=
  match s with
  | SampleSite _ fn v => dist_valid fn /\ in_support fn v
  | DeterministicSite _ _ => True
  end.

(** A handler that answers every valid distribution within its support. *)
Definition draws_in_support {Rng : Type}
  (draw : Rng -> string -> Dist -> R * Rng) : Prop :=
  forall s name fn, dist_valid fn -> in_support fn (fst (draw s name fn)).

(** [wp m Q]: every distribution the model [m] builds is valid and its result
    satisfies [Q], whatever values within the supports it is handed. *)
Fixpoint wp {A : Type} (m : Model A) (Q : A -> Prop) : Prop :=
  match m with
  | Ret a => Q a
  | SampleK _ fn k => dist_valid fn /\ forall v, in_support fn v -> wp (k v) Q
  | DeterministicK _ _ k => wp k Q
  end.


(** * Properties *)

(** ** Running programs *)

Section Run.

Context {Rng : Type}.
Variable draw : Rng -> string -> Dist -> R * Rng.

Lemma run_bind {A B : Type} (m : Model A) (f : A -> Model B) st :
  run draw (bind m f) st = let (a, st') := run draw m st in run draw (f a) st'.
Proof.
  revert st; induction m as [a | name fn k IH | name value k IH];
    intros st; simpl.
  - reflexivity.
  - destruct (draw (rng st) name fn) as [v rng']. apply IH.
  - apply IH.
Qed.

(** A run only appends to the trace: what it does from a trace [tr] is what
    it does from the empty trace, after [tr]. *)
Lemma run_frame {A : Type} (m : Model A) s tr :
  run draw m (mkHost s tr) =
  let (a, st') := run draw m (mkHost s []) in
  (a, mkHost (rng st') (tr ++ trace st')).
Proof.
  enough (H : forall pre tr0,
             run draw m (mkHost s (pre ++ tr0)) =
             let (a, st') := run draw m (mkHost s tr0) in
             (a, mkHost (rng st') (pre ++ trace st'))).
  { specialize (H tr []). now rewrite app_nil_r in H. }
  revert s; induction m as [a | name fn k IH | name value k IH];
    intros s pre tr0; simpl.
  - reflexivity.
  - destruct (draw s name fn) as [v s']. rewrite <- app_assoc. apply IH.
  - rewrite <- app_assoc. apply IH.
Qed.

End Run.

(** ** Traces of [h_t] chains *)

Lemma last_cons_default {A : Type} (l : list A) (a d : A) :
  last (a :: l) d = last l a.
Proof.
  revert a d; induction l as [| b l IH]; intros a d; [reflexivity |].
  change (last (b :: l) d = last (b :: l) a). now rewrite (IH b d), (IH b a).
Qed.

Section Chains.

Variables sv_mu phi sv_sigma2_eta : R.

Lemma ar1_sites_length h sites hs :
  ar1_sites sv_mu phi sv_sigma2_eta h sites hs ->
  length sites = length hs.
Proof. induction 1; simpl; congruence. Qed.

Lemma ar1_sites_sample_values h sites hs tl :
  ar1_sites sv_mu phi sv_sigma2_eta h sites hs ->
  sample_values "h_t" (sites ++ tl) = hs ++ sample_values "h_t" tl.
Proof. induction 1; simpl; [reflexivity | now f_equal]. Qed.

Lemma ar1_sites_sites_named h sites hs tl :
  ar1_sites sv_mu phi sv_sigma2_eta h sites hs ->
  sites_named "h_t" (sites ++ tl) = sites ++ sites_named "h_t" tl.
Proof.
  unfold sites_named. induction 1; simpl; [reflexivity | now f_equal].
Qed.

Lemma ar1_sites_lookup_sample name h sites hs tl :
  String.eqb "h_t" name = false ->
  ar1_sites sv_mu phi sv_sigma2_eta h sites hs ->
  lookup_sample name (sites ++ tl) = lookup_sample name tl.
Proof.
  intros Hname. induction 1; cbn [app lookup_sample]; [reflexivity |].
  now rewrite Hname.
Qed.

Lemma ar1_sites_lookup_deterministic name h sites hs tl :
  ar1_sites sv_mu phi sv_sigma2_eta h sites hs ->
  lookup_deterministic name (sites ++ tl) = lookup_deterministic name tl.
Proof. induction 1; simpl; [reflexivity | assumption]. Qed.

Lemma ar1_sites_keys h sites hs :
  ar1_sites sv_mu phi sv_sigma2_eta h sites hs ->
  map site_key sites = repeat ("h_t", sample_type) (length hs).
Proof.
  induction 1 as [| h v sites vs _ IH]; simpl; [reflexivity |].
  now rewrite IH.
Qed.

(** The [t]-th site of a chain draws the [t]-th state around the AR(1) mean of
    the state before it. *)
Lemma ar1_sites_nth h sites hs t :
  ar1_sites sv_mu phi sv_sigma2_eta h sites hs ->
  (t < length hs)%nat ->
  nth_error sites t =
  Some (SampleSite "h_t"
          (Normal (sv_mu + phi * (nth t (h :: hs) 0 - sv_mu))
                  (jnp_sqrt sv_sigma2_eta))
          (nth (S t) (h :: hs) 0)).
Proof.
  intros H; revert t.
  induction H as [| h v sites vs _ IH]; intros t Ht; simpl in Ht.
  - lia.
  - destruct t as [| t]; [reflexivity |].
    simpl nth_error. rewrite IH by lia. reflexivity.
Qed.

End Chains.

(** ** The shape of the runs *)

Section Shape.

Context {Rng : Type}.
Variable draw : Rng -> string -> Dist -> R * Rng.

(** A scan of [sv_ht_scan] appends a chain of [h_t] sites, one per element
    of [xs], and emits the states it drew. *)
Lemma run_scan_sv_ht_scan sv_mu phi sv_sigma2_eta (xs : list R) :
  forall h st,
  exists sites hs s',
    run draw (scan (sv_ht_scan sv_mu phi sv_sigma2_eta) h xs) st =
    ((last hs h, hs), mkHost s' (trace st ++ sites)) /\
    ar1_sites sv_mu phi sv_sigma2_eta h sites hs /\
    length hs = length xs.
Proof.
  induction xs as [| x xs IH]; intros h st.
  - exists [], [], (rng st). simpl. rewrite app_nil_r.
    destruct st; repeat split; constructor.
  - simpl. destruct (draw (rng st) _ _) as [v s1].
    rewrite run_bind.
    destruct (IH v (mkHost s1 (trace st ++
      [SampleSite "h_t" (Normal (sv_mu + phi * (h - sv_mu))
                                (jnp_sqrt sv_sigma2_eta)) v])))
      as (sites & hs & s' & Hrun & Hsites & Hlen).
    rewrite Hrun. simpl.
    eexists (_ :: sites), (v :: hs), s'. repeat split.
    + rewrite last_cons_default, <- app_assoc. reflexivity.
    + now constructor.
    + simpl. congruence.
Qed.

(** The run of [homoscedastic]: two draws, the second with the first as its
    scale. *)
Lemma homoscedastic_run s :
  exec draw homoscedastic s =
  let (C_0, s1) := draw s "C_0" (Gamma 5 3.33) in
  let (sigma2, s2) := draw s1 "sigma2" (InverseGamma 2.5 C_0) in
  (sigma2, mkHost s2 [SampleSite "C_0" (Gamma 5 3.33) C_0;
                      SampleSite "sigma2" (InverseGamma 2.5 C_0) sigma2]).
Proof.
  unfold exec. simpl.
  destruct (draw s _ _) as [C_0 s1]. simpl.
  destruct (draw s1 _ _) as [sigma2 s2]. reflexivity.
Qed.

(** The run of [stochastic_volatility]: four scalar draws, a chain of
    [n_timesteps] states, and the deterministic site of their exponentials. *)
Lemma stochastic_volatility_run n_timesteps s :
  exists sv_phi sv_sigma2_eta sv_mu h_0 sites hs s',
    exec draw (stochastic_volatility n_timesteps) s =
    (jnp_exp hs,
     mkHost s'
       (SampleSite "sv_phi" (Beta 5.0 1.5) sv_phi
        :: SampleSite "sv_sigma2_eta" (Gamma 0.5 (0.5 * 1.0)) sv_sigma2_eta
        :: SampleSite "sv_mu" (Normal 0.0 (jnp_sqrt 1.0)) sv_mu
        :: SampleSite "h_0" (h_0_dist sv_phi sv_sigma2_eta sv_mu) h_0
        :: sites ++ [DeterministicSite "sigma2" (jnp_exp hs)])) /\
    sv_phi = fst (draw s "sv_phi" (Beta 5.0 1.5)) /\
    ar1_sites sv_mu (sv_phi_trans sv_phi) sv_sigma2_eta h_0 sites hs /\
    length hs = n_timesteps.
Proof.
  unfold exec. simpl.
  destruct (draw s _ _) as [sv_phi s1]. simpl.
  destruct (draw s1 _ _) as [sv_sigma2_eta s2]. simpl.
  destruct (draw s2 _ _) as [sv_mu s3]. simpl.
  destruct (draw s3 _ _) as [h_0 s4]. simpl.
  rewrite run_bind.
  match goal with
  | |- context [run draw (scan ?f ?h ?xs) ?st] =>
      destruct (run_scan_sv_ht_scan sv_mu (sv_phi_trans sv_phi) sv_sigma2_eta
                  xs h st) as (sites & hs & s' & Hrun & Hsites & Hlen)
  end.
  rewrite Hrun. simpl.
  exists sv_phi, sv_sigma2_eta, sv_mu, h_0, sites, hs, s'.
  repeat split; try assumption.
  rewrite Hlen. apply repeat_length.
Qed.

End Shape.

(** What can be read off a trace of [stochastic_volatility]. *)
Lemma sv_trace_lookups sv_phi sv_sigma2_eta sv_mu h_0 sites hs tr :
  tr = SampleSite "sv_phi" (Beta 5.0 1.5) sv_phi
       :: SampleSite "sv_sigma2_eta" (Gamma 0.5 (0.5 * 1.0)) sv_sigma2_eta
       :: SampleSite "sv_mu" (Normal 0.0 (jnp_sqrt 1.0)) sv_mu
       :: SampleSite "h_0" (h_0_dist sv_phi sv_sigma2_eta sv_mu) h_0
       :: sites ++ [DeterministicSite "sigma2" (jnp_exp hs)] ->
  ar1_sites sv_mu (sv_phi_trans sv_phi) sv_sigma2_eta h_0 sites hs ->
  (lookup_sample "sv_phi" tr = Some (Beta 5.0 1.5, sv_phi) /\
   lookup_sample "sv_sigma2_eta" tr =
     Some (Gamma 0.5 (0.5 * 1.0), sv_sigma2_eta) /\
   lookup_sample "sv_mu" tr = Some (Normal 0.0 (jnp_sqrt 1.0), sv_mu) /\
   lookup_sample "h_0" tr =
     Some (h_0_dist sv_phi sv_sigma2_eta sv_mu, h_0)) /\
  lookup_sample "sigma2" tr = None /\
  lookup_deterministic "sigma2" tr = Some (jnp_exp hs) /\
  sample_values "h_t" tr = hs /\
  sites_named "h_t" tr = sites.
Proof.
  intros -> Hsites. repeat split.
  - cbn [lookup_sample String.eqb Ascii.eqb Bool.eqb andb].
    now rewrite (ar1_sites_lookup_sample _ _ _ "sigma2" _ _ _ _ eq_refl Hsites).
  - cbn [lookup_deterministic].
    now rewrite (ar1_sites_lookup_deterministic _ _ _ "sigma2" _ _ _ _ Hsites).
  - cbn [sample_values String.eqb Ascii.eqb Bool.eqb andb].
    rewrite (ar1_sites_sample_values _ _ _ _ _ _ _ Hsites).
    apply app_nil_r.
  - unfold sites_named.
    cbn [filter site_name String.eqb Ascii.eqb Bool.eqb andb].
    fold (sites_named "h_t" (sites ++ [DeterministicSite "sigma2" (jnp_exp hs)])).
    rewrite (ar1_sites_sites_named _ _ _ _ _ _ _ Hsites).
    apply app_nil_r.
Qed.

(** Destructs the run of [stochastic_volatility] under [draw] from [s] and
    rewrites the result and the trace of the goal with it. *)
Ltac sv_shape draw n s :=
  let Hrun := fresh "Hrun" in
  destruct (stochastic_volatility_run draw n s)
    as (sv_phi & sv_sigma2_eta & sv_mu & h_0 & sites & hs & s' &
        Hrun & Hphi & Hsites & Hlen);
  unfold result_of, trace_of;
  rewrite Hrun;
  cbn [fst snd trace];
  destruct (sv_trace_lookups _ _ _ _ _ _ _ eq_refl Hsites)
    as ((Lphi & Leta & Lmu & Lh0) & Lsig & Ldet & Lvals & Lnamed).

(** * The claims *)

Section Claims.

Context {Rng : Type}.
Variable draw : Rng -> string -> Dist -> R * Rng.

(** C2.  For every [t] from 1 to [n_timesteps], the [t]-th [h_t] site draws
    the state [h_t] from [Normal (sv_mu + sv_phi_trans * (h_{t-1} - sv_mu))
    (sqrt sv_sigma2_eta)], where [h_{t-1}] is the state drawn just before
    it ([h_0] for the first step): a first-order recursion in trace order. *)
Theorem sv_ht_scan_markov_recursion (n_timesteps : nat) (s : Rng) (t : nat) :
  (1 <= t <= n_timesteps)%nat ->
  let tr := trace_of draw (stochastic_volatility n_timesteps) s in
  let sv_mu := sample_value "sv_mu" tr in
  let phi := sv_phi_trans (sample_value "sv_phi" tr) in
  let sv_sigma2_eta := sample_value "sv_sigma2_eta" tr in
  let h := h_states tr in
  length h = S n_timesteps /\
  nth_error (sites_named "h_t" tr) (t - 1) =
  Some (SampleSite "h_t"
          (Normal (sv_mu + phi * (nth (t - 1) h 0 - sv_mu))
                  (jnp_sqrt sv_sigma2_eta))
          (nth t h 0)).
Proof.
  intros Ht. sv_shape draw n_timesteps s.
  unfold h_states, sample_value. rewrite Lphi, Leta, Lmu, Lh0, Lvals, Lnamed.
  split; [simpl; congruence |].
  rewrite (ar1_sites_nth _ _ _ _ _ _ (t - 1) Hsites) by lia.
  replace (S (t - 1)) with t by lia. reflexivity.
Qed.

(** C3.  The deterministic site [sigma2] holds [exp h_t] for every traced
    [h_t], elementwise and in order; it is what the function returns, and no
    sample statement is made under the name [sigma2]. *)
Theorem sigma2_is_exp_of_h_t (n_timesteps : nat) (s : Rng) :
  let sigma2 := result_of draw (stochastic_volatility n_timesteps) s in
  let tr := trace_of draw (stochastic_volatility n_timesteps) s in
  lookup_deterministic "sigma2" tr = Some sigma2 /\
  Forall2 (fun h_t sigma2_t => sigma2_t = exp h_t)
          (sample_values "h_t" tr) sigma2 /\
  lookup_sample "sigma2" tr = None.
Proof.
  sv_shape draw n_timesteps s. rewrite Lvals.
  split; [exact Ldet | split; [| exact Lsig]].
  unfold jnp_exp. clear. induction hs; simpl; constructor; auto.
Qed.

(** C4.  [homoscedastic] takes no input; it draws [C_0] from [Gamma 5 3.33],
    then [sigma2] from [InverseGamma 2.5 C_0], the second draw from the state
    the first one left, and returns [sigma2], a scalar. *)
Theorem homoscedastic_draws (s : Rng) :
  let C_0 := fst (draw s "C_0" (Gamma 5 3.33)) in
  let s1 := snd (draw s "C_0" (Gamma 5 3.33)) in
  let sigma2 := fst (draw s1 "sigma2" (InverseGamma 2.5 C_0)) in
  trace_of draw homoscedastic s =
    [SampleSite "C_0" (Gamma 5 3.33) C_0;
     SampleSite "sigma2" (InverseGamma 2.5 C_0) sigma2] /\
  result_of draw homoscedastic s = sigma2.
Proof.
  unfold trace_of, result_of. rewrite homoscedastic_run.
  destruct (draw s _ _) as [C_0 s1]. cbn [fst snd].
  destruct (draw s1 _ _) as [sigma2 s2]. split; reflexivity.
Qed.

(** C7.  With [n_timesteps = 0], [stochastic_volatility] returns the empty
    sequence: the run ends, with no [h_t] site and the empty array registered
    under [sigma2]. *)
Theorem stochastic_volatility_zero_timesteps (s : Rng) :
  let tr := trace_of draw (stochastic_volatility 0) s in
  result_of draw (stochastic_volatility 0) s = [] /\
  sites_named "h_t" tr = [] /\
  lookup_deterministic "sigma2" tr = Some [].
Proof.
  sv_shape draw 0%nat s.
  rewrite Lnamed, Ldet.
  pose proof (ar1_sites_length _ _ _ _ _ _ Hsites) as Hl.
  destruct hs; [| discriminate].
  destruct sites; [| discriminate].
  repeat split.
Qed.

(** C9.  [homoscedastic] registers the two sample sites [C_0] and [sigma2];
    [stochastic_volatility] registers the four sample sites [sv_phi],
    [sv_sigma2_eta], [sv_mu] and [h_0], one sample site per timestep under
    the one name [h_t], and the deterministic site [sigma2]; the sites are
    appended to the trace and the sites already there are left as they
    were. *)
Theorem registered_sites (n_timesteps : nat) (s : Rng) (tr0 : list Site) :
  (trace (snd (run draw homoscedastic (mkHost s tr0))) =
     tr0 ++ trace_of draw homoscedastic s /\
   map site_key (trace_of draw homoscedastic s) =
     [("C_0", sample_type); ("sigma2", sample_type)]) /\
  (trace (snd (run draw (stochastic_volatility n_timesteps) (mkHost s tr0))) =
     tr0 ++ trace_of draw (stochastic_volatility n_timesteps) s /\
   map site_key (trace_of draw (stochastic_volatility n_timesteps) s) =
     [("sv_phi", sample_type); ("sv_sigma2_eta", sample_type);
      ("sv_mu", sample_type); ("h_0", sample_type)]
     ++ repeat ("h_t", sample_type) n_timesteps
     ++ [("sigma2", deterministic_type)]).
Proof.
  split; split.
  - rewrite run_frame. unfold trace_of, exec.
    now destruct (run draw homoscedastic (mkHost s [])).
  - unfold trace_of. rewrite homoscedastic_run.
    destruct (draw s _ _) as [C_0 s1].
    destruct (draw s1 _ _) as [sigma2 s2]. reflexivity.
  - rewrite run_frame. unfold trace_of, exec.
    now destruct (run draw (stochastic_volatility n_timesteps) (mkHost s [])).
  - sv_shape draw n_timesteps s.
    cbn [map app site_key site_name site_type]. do 4 f_equal.
    rewrite map_app, (ar1_sites_keys _ _ _ _ _ _ Hsites), Hlen.
    reflexivity.
Qed.

(** C10.  [homoscedastic] returns the value drawn at the site [sigma2], a
    draw from [InverseGamma 2.5 C_0] with [C_0] the value of the site [C_0];
    the result is a number, whatever the annotation of the function says. *)
Theorem homoscedastic_returns_sigma2 (s : Rng) :
  let tr := trace_of draw homoscedastic s in
  lookup_sample "sigma2" tr =
    Some (InverseGamma 2.5 (sample_value "C_0" tr),
          result_of draw homoscedastic s).
Proof.
  unfold trace_of, result_of. rewrite homoscedastic_run.
  destruct (draw s _ _) as [C_0 s1].
  destruct (draw s1 _ _) as [sigma2 s2]. reflexivity.
Qed.

End Claims.

(** * The claims at concrete runs *)

Lemma sv_ht_scan_markov_recursion_witness :
  (1 <= 3 <= 5)%nat /\
  nth_error
    (sites_named "h_t" (trace_of count_draw (stochastic_volatility 5) 0%nat))
    2 =
  Some (SampleSite "h_t" (Normal (2 + (0 * 2 - 1) * (5 - 2)) (jnp_sqrt 1)) 6).
Proof.
  split; [lia |].
  pose proof (sv_ht_scan_markov_recursion count_draw 5 0%nat 3
                ltac:(lia)) as [_ H].
  cbv zeta in H. exact H.
Defined.

(** ** Runs of the models *)

Example homoscedastic_count_draw :
  exec count_draw homoscedastic 0%nat =
  (1, mkHost 2%nat [SampleSite "C_0" (Gamma 5 3.33) 0;
                    SampleSite "sigma2" (InverseGamma 2.5 0) 1]).
Proof. reflexivity. Qed.

Example stochastic_volatility_count_draw :
  exec count_draw (stochastic_volatility 2) 0%nat =
  ([exp 4; exp 5],
   mkHost 6%nat
     [SampleSite "sv_phi" (Beta 5.0 1.5) 0;
      SampleSite "sv_sigma2_eta" (Gamma 0.5 (0.5 * 1.0)) 1;
      SampleSite "sv_mu" (Normal 0.0 (sqrt 1.0)) 2;
      SampleSite "h_0" (Normal 2 (sqrt (1 / (1 - (0 * 2 - 1) ^ 2)))) 3;
      SampleSite "h_t" (Normal (2 + (0 * 2 - 1) * (3 - 2)) (sqrt 1)) 4;
      SampleSite "h_t" (Normal (2 + (0 * 2 - 1) * (4 - 2)) (sqrt 1)) 5;
      DeterministicSite "sigma2" [exp 4; exp 5]]).
Proof. reflexivity. Qed.

Example stochastic_volatility_no_timesteps :
  exec (const_draw 1) (stochastic_volatility 0) tt =
  ([],
   mkHost tt
     [SampleSite "sv_phi" (Beta 5.0 1.5) 1;
      SampleSite "sv_sigma2_eta" (Gamma 0.5 (0.5 * 1.0)) 1;
      SampleSite "sv_mu" (Normal 0.0 (sqrt 1.0)) 1;
      SampleSite "h_0" (Normal 1 (sqrt (1 / (1 - (1 * 2 - 1) ^ 2)))) 1;
      DeterministicSite "sigma2" []]).
Proof. reflexivity. Qed.

Example homoscedastic_seed_42 :
  exec (seed nat nat_split nat_sampler) homoscedastic 42%nat =
  (172, mkHost 171%nat [SampleSite "C_0" (Gamma 5 3.33) 86;
                        SampleSite "sigma2" (InverseGamma 2.5 86) 172]).
Proof. reflexivity. Qed.

Example stochastic_volatility_seed_42 :
  h_states (trace_of (seed nat nat_split nat_sampler)
              (stochastic_volatility 5) 42%nat) =
  [688; 1376; 2752; 5504; 11008; 22016] /\
  result_of (seed nat nat_split nat_sampler) (stochastic_volatility 5) 42%nat =
  [exp 1376; exp 2752; exp 5504; exp 11008; exp 22016].
Proof. split; reflexivity. Qed.

(** * Further properties of the models *)

(** ** Valid parameters under supported draws *)



Section Sound.

Context {Rng : Type}.
Variable draw : Rng -> string -> Dist -> R * Rng.
Hypothesis draw_supported : draws_in_support draw.

(** A run of a model with [wp m Q] keeps the trace sound and ends in [Q]. *)
Lemma run_wp {A : Type} (m : Model A) (Q : A -> Prop) st :
  wp m Q ->
  Forall site_valid (trace st) ->
  Q (fst (run draw m st)) /\ Forall site_valid (trace (snd (run draw m st))).
Proof.
  revert st; induction m as [a | name fn k IH | name value k IH];
    intros st; simpl.
  - auto.
  - intros [Hfn Hk] Htr.
    pose proof (draw_supported (rng st) name fn Hfn) as Hv.
    destruct (draw (rng st) name fn) as [v s']. simpl in Hv.
    apply IH; [apply Hk, Hv |]. simpl.
    apply Forall_app. split; [exact Htr |].
    constructor; [split; assumption | constructor].
  - intros Hk Htr. apply IH; [exact Hk |]. simpl.
    apply Forall_app. split; [exact Htr |].
    constructor; [exact I | constructor].
Qed.

End Sound.

Lemma wp_homoscedastic : wp homoscedastic (fun sigma2 => 0 < sigma2).
Proof.
  simpl. split; [split; lra |].
  intros C_0 HC. split; [split; [lra | exact HC] |].
  intros sigma2 Hs. exact Hs.
Qed.


Lemma stationary_denominator_range sv_phi :
  0 < sv_phi < 1 ->
  0 < stationary_denominator sv_phi <= 1.
Proof.
  unfold stationary_denominator, sv_phi_trans. intros H.
  split; [nra |]. pose proof (pow2_ge_0 (sv_phi * 2 - 1)). lra.
Qed.


Section Extras.

Context {Rng : Type}.
Variable draw : Rng -> string -> Dist -> R * Rng.

(** X1.  When the handler answers every valid distribution within its
    support, every site of [homoscedastic] has valid parameters and a value in
    the support, and the variance it returns is strictly positive. *)
Theorem homoscedastic_valid_positive (s : Rng) :
  draws_in_support draw ->
  Forall site_valid (trace_of draw homoscedastic s) /\
  0 < result_of draw homoscedastic s.
Proof.
  intros Hdraw.
  destruct (run_wp draw Hdraw homoscedastic _ (mkHost s [])
              wp_homoscedastic (Forall_nil _)) as [HQ Htr].
  split; [exact Htr | exact HQ].
Qed.


End Extras.

(** ** Scans in pieces *)

Section ScanRuns.

Context {Rng : Type}.
Variable draw : Rng -> string -> Dist -> R * Rng.

(** A scan over [xs ++ ys] is the scan over [xs] followed by the scan over
    [ys] from the carry and the state the first one left. *)
Lemma run_scan_app {C X Y : Type} (f : C -> X -> Model (C * Y))
  (xs ys : list X) :
  forall init st,
    run draw (scan f init (xs ++ ys)) st =
    let '((carry, out1), st1) := run draw (scan f init xs) st in
    let '((last, out2), st2) := run draw (scan f carry ys) st1 in
    ((last, out1 ++ out2), st2).
Proof.
  induction xs as [| x xs IH]; intros init st.
  - simpl. now destruct (run draw (scan f init ys) st) as [[last out2] st2].
  - cbn [app scan]. rewrite !run_bind.
    destruct (run draw (f init x) st) as [[carry y] st0].
    cbn beta iota. rewrite !run_bind, IH.
    destruct (run draw (scan f carry xs) st0) as [[carry1 out1] st1].
    cbn beta iota. cbn [run].
    destruct (run draw (scan f carry1 ys) st1) as [[last out2] st2].
    reflexivity.
Qed.

(** The run of [stochastic_volatility], with the scan left as it is. *)
Lemma stochastic_volatility_run_scan n_timesteps s :
  exec draw (stochastic_volatility n_timesteps) s =
  let (sv_phi, s1) := draw s "sv_phi" (Beta 5.0 1.5) in
  let (sv_sigma2_eta, s2) :=
    draw s1 "sv_sigma2_eta" (Gamma 0.5 (0.5 * 1.0)) in
  let (sv_mu, s3) := draw s2 "sv_mu" (Normal 0.0 (jnp_sqrt 1.0)) in
  let (h_0, s4) := draw s3 "h_0" (h_0_dist sv_phi sv_sigma2_eta sv_mu) in
  let '((_, h_t), st) :=
    run draw
      (scan (sv_ht_scan sv_mu (sv_phi_trans sv_phi) sv_sigma2_eta) h_0
            (jnp_zeros n_timesteps))
      (mkHost s4
         [SampleSite "sv_phi" (Beta 5.0 1.5) sv_phi;
          SampleSite "sv_sigma2_eta" (Gamma 0.5 (0.5 * 1.0)) sv_sigma2_eta;
          SampleSite "sv_mu" (Normal 0.0 (jnp_sqrt 1.0)) sv_mu;
          SampleSite "h_0" (h_0_dist sv_phi sv_sigma2_eta sv_mu) h_0]) in
  (jnp_exp h_t,
   mkHost (rng st) (trace st ++ [DeterministicSite "sigma2" (jnp_exp h_t)])).
Proof.
  unfold exec. simpl.
  destruct (draw s _ _) as [sv_phi s1]. simpl.
  destruct (draw s1 _ _) as [sv_sigma2_eta s2]. simpl.
  destruct (draw s2 _ _) as [sv_mu s3]. simpl.
  destruct (draw s3 _ _) as [h_0 s4]. simpl.
  rewrite run_bind.
  match goal with
  | |- context [run draw (scan ?f ?h ?xs) ?st] =>
      destruct (run draw (scan f h xs) st) as [[last h_t] st']
  end.
  reflexivity.
Qed.

(** X3.  The timesteps do not look ahead: the variances of a run with
    [n] timesteps are the first [n] variances of the run with [n + m]
    timesteps from the same handler state, and its sites before [sigma2] are
    the first [n + 4] sites of the longer run. *)
Theorem stochastic_volatility_prefix (n m : nat) (s : Rng) :
  result_of draw (stochastic_volatility n) s =
    firstn n (result_of draw (stochastic_volatility (n + m)) s) /\
  removelast (trace_of draw (stochastic_volatility n) s) =
    firstn (n + 4) (trace_of draw (stochastic_volatility (n + m)) s).
Proof.
  unfold result_of, trace_of. rewrite !stochastic_volatility_run_scan.
  destruct (draw s _ _) as [sv_phi s1].
  destruct (draw s1 _ _) as [sv_sigma2_eta s2].
  destruct (draw s2 _ _) as [sv_mu s3].
  destruct (draw s3 _ _) as [h_0 s4].
  unfold jnp_zeros. rewrite repeat_app, run_scan_app.
  match goal with
  | |- context [run draw (scan ?f ?h (repeat 0 n)) ?st] =>
      destruct (run_scan_sv_ht_scan draw sv_mu (sv_phi_trans sv_phi)
                  sv_sigma2_eta (repeat 0 n) h st)
        as (sites1 & hs1 & s1' & Hrun1 & Hsites1 & Hlen1)
  end.
  rewrite Hrun1.
  match goal with
  | |- context [run draw (scan ?f ?h (repeat 0 m)) ?st] =>
      destruct (run_scan_sv_ht_scan draw sv_mu (sv_phi_trans sv_phi)
                  sv_sigma2_eta (repeat 0 m) h st)
        as (sites2 & hs2 & s2' & Hrun2 & _ & _)
  end.
  rewrite Hrun2. cbn [fst snd trace rng].
  rewrite repeat_length in Hlen1.
  pose proof (ar1_sites_length _ _ _ _ _ _ Hsites1) as Hl1.
  split.
  - unfold jnp_exp. rewrite map_app, firstn_app, length_map, Hlen1.
    rewrite Nat.sub_diag, firstn_O, app_nil_r.
    rewrite firstn_all2 by (rewrite length_map; lia). reflexivity.
  - rewrite removelast_last.
    rewrite <- !app_assoc.
    replace (n + 4)%nat with (S (S (S (S n)))) by lia.
    cbn [app firstn]. do 4 f_equal.
    rewrite firstn_app, Hl1, Hlen1, Nat.sub_diag, firstn_O, app_nil_r.
    rewrite firstn_all2 by lia. reflexivity.
Qed.

(** X6.  The scanned sequence is a dummy: a scan of [sv_ht_scan] over any
    two sequences of the same length runs the same, whatever their values. *)
Theorem sv_ht_scan_ignores_sequence sv_mu phi sv_sigma2_eta (xs ys : list R) :
  length xs = length ys ->
  forall h st,
    run draw (scan (sv_ht_scan sv_mu phi sv_sigma2_eta) h xs) st =
    run draw (scan (sv_ht_scan sv_mu phi sv_sigma2_eta) h ys) st.
Proof.
  revert ys; induction xs as [| x xs IH]; intros [| y ys] Hlen h st;
    try discriminate; [reflexivity |].
  cbn [scan]. rewrite !run_bind.
  change (sv_ht_scan sv_mu phi sv_sigma2_eta h y)
    with (sv_ht_scan sv_mu phi sv_sigma2_eta h x).
  destruct (run draw (sv_ht_scan sv_mu phi sv_sigma2_eta h x) st)
    as [[carry v] st0].
  cbn beta iota.
  rewrite !run_bind, (IH ys) by (simpl in Hlen; congruence).
  reflexivity.
Qed.

(** X7.  Every step of [sv_ht_scan] carries on the state it emits: the scan
    emits one state per element, its last carry is the last state emitted
    (the initial state when there is no step), and the states emitted are
    the values of the sites it appends to the trace. *)
Theorem sv_ht_scan_carry_is_last_state sv_mu phi sv_sigma2_eta
  (xs : list R) (h : R) (s : Rng) :
  let r := run draw (scan (sv_ht_scan sv_mu phi sv_sigma2_eta) h xs)
               (mkHost s []) in
  let carry := fst (fst r) in
  let h_t := snd (fst r) in
  length h_t = length xs /\
  carry = last h_t h /\
  h_t = sample_values "h_t" (trace (snd r)).
Proof.
  destruct (run_scan_sv_ht_scan draw sv_mu phi sv_sigma2_eta xs h
              (mkHost s []))
    as (sites & hs & s' & Hrun & Hsites & Hlen).
  cbv zeta. rewrite Hrun. cbn [fst snd trace app].
  repeat split; [exact Hlen |].
  pose proof (ar1_sites_sample_values _ _ _ _ _ _ [] Hsites) as Hv.
  rewrite !app_nil_r in Hv. now rewrite Hv.
Qed.

End ScanRuns.

(** ** The normal distributions of the states *)


Section States.

Context {Rng : Type}.
Variable draw : Rng -> string -> Dist -> R * Rng.



End States.

(** ** The further properties at concrete runs *)

Lemma const_draw_half_supported : draws_in_support (const_draw (1 / 2)).
Proof. intros s name [? ? | ? ? | ? ? | ? ?] _; simpl; lra. Qed.

Lemma homoscedastic_valid_positive_witness :
  draws_in_support (const_draw (1 / 2)) /\
  Forall site_valid (trace_of (const_draw (1 / 2)) homoscedastic tt) /\
  0 < result_of (const_draw (1 / 2)) homoscedastic tt.
Proof.
  split; [exact const_draw_half_supported |].
  exact (homoscedastic_valid_positive (const_draw (1 / 2)) tt
           const_draw_half_supported).
Defined.


Lemma sv_ht_scan_ignores_sequence_witness :
  length [1; 2] = length [0; 0] /\
  run count_draw (scan (sv_ht_scan 0 (1 / 2) 1) 3 [1; 2]) (mkHost 0%nat []) =
  run count_draw (scan (sv_ht_scan 0 (1 / 2) 1) 3 [0; 0]) (mkHost 0%nat []).
Proof.
  split; [reflexivity |].
  exact (sv_ht_scan_ignores_sequence count_draw 0 (1 / 2) 1 [1; 2] [0; 0]
           eq_refl 3 (mkHost 0%nat [])).
Defined.



(** * The models in float32 arithmetic *)

(** ** Rounding keeps the sign *)

Section SignOfRounding.

Variables prec emax : Z.

Lemma shr_1_nonneg mrs : (0 <= shr_m mrs)%Z -> (0 <= shr_m (shr_1 mrs))%Z.
Proof.
  destruct mrs as [m r s]. destruct m as [| [p | p |] | p]; simpl; lia.
Qed.

Lemma iter_pos_shr_1_nonneg (p : positive) :
  forall mrs, (0 <= shr_m mrs)%Z -> (0 <= shr_m (iter_pos shr_1 p mrs))%Z.
Proof.
  induction p as [p IH | p IH |]; intros mrs H; simpl.
  - apply IH, IH, shr_1_nonneg, H.
  - apply IH, IH, H.
  - apply shr_1_nonneg, H.
Qed.

Lemma shr_fexp_nonneg m e l :
  (0 <= m)%Z -> (0 <= shr_m (fst (shr_fexp prec emax m e l)))%Z.
Proof.
  intros Hm. unfold shr_fexp, shr.
  assert (H0 : (0 <= shr_m (shr_record_of_loc m l))%Z)
    by (destruct l as [| []]; exact Hm).
  destruct (fexp prec emax (Zdigits2 m + e) - e)%Z; simpl; try exact H0.
  apply iter_pos_shr_1_nonneg, H0.
Qed.

Lemma round_nearest_even_nonneg mx lx :
  (0 <= mx)%Z -> (0 <= round_nearest_even mx lx)%Z.
Proof.
  intros H. destruct lx as [| []]; simpl; try lia.
  destruct (Z.even mx); lia.
Qed.

(** Rounding a non-negative mantissa gives zero, a positive number or the
    positive infinity. *)
Lemma binary_round_aux_nonneg mx ex lx :
  (0 <= mx)%Z ->
  SFleb (S754_zero false) (binary_round_aux prec emax false mx ex lx) = true.
Proof.
  intros Hm. unfold binary_round_aux.
  pose proof (shr_fexp_nonneg mx ex lx Hm) as H1.
  destruct (shr_fexp prec emax mx ex lx) as [mrs' e']. simpl in H1.
  pose proof (shr_fexp_nonneg _ e' loc_Exact
                (round_nearest_even_nonneg _ (loc_of_shr_record mrs') H1))
    as H2.
  destruct (shr_fexp prec emax _ e' loc_Exact) as [mrs'' e'']. simpl in H2.
  destruct (shr_m mrs'') as [| p | p]; [reflexivity | | lia].
  destruct (e'' <=? emax - prec)%Z; reflexivity.
Qed.

Lemma binary_normalize_nonneg m e :
  (0 <= m)%Z ->
  SFleb (S754_zero false) (binary_normalize prec emax m e false) = true.
Proof.
  intros Hm. destruct m as [| p | p]; [reflexivity | | lia].
  unfold binary_normalize, binary_round.
  destruct (shl_align p e _) as [mz ez].
  apply binary_round_aux_nonneg. lia.
Qed.

End SignOfRounding.

(** ** The exponential on float32 numbers *)

Lemma Int_part_nonneg (x : R) : 0 <= x -> (0 <= Int_part x)%Z.
Proof.
  intros Hx. destruct (base_Int_part x) as [_ H].
  assert (Hlt : -1 < IZR (Int_part x)) by lra.
  apply lt_IZR in Hlt. lia.
Qed.

Lemma rint_nonneg (x : R) : 0 <= x -> (0 <= F32.rint x)%Z.
Proof.
  intros Hx. pose proof (Int_part_nonneg x Hx). unfold F32.rint.
  destruct (Rlt_dec _ _); [lia |].
  destruct (Rlt_dec _ _); [lia |].
  destruct (Z.even _); lia.
Qed.

(** A real number under one half rounds to the integer 0. *)
Lemma rint_small (x : R) : 0 <= x < 1 / 2 -> F32.rint x = 0%Z.
Proof.
  intros Hx.
  assert (H0 : Int_part x = 0%Z)
    by (symmetry; apply Int_part_spec; simpl; lra).
  unfold F32.rint. rewrite H0. simpl.
  destruct (Rlt_dec (x - 0) (1 / 2)) as [_ | Hn]; [reflexivity | lra].
Qed.

(** The exponential of a float32 number is never negative: it is zero, a
    positive number or the positive infinity (a NaN for a NaN). *)
Lemma f32_exp_nonneg (x : F32.float32) :
  x <> F32.nan -> F32.leb F32.zero (F32.exp x) = true.
Proof.
  intros Hx. destruct x as [s | [|] | | s m e]; try reflexivity.
  - now elim Hx.
  - unfold F32.exp, F32.round_pos. apply binary_normalize_nonneg.
    apply rint_nonneg. apply Rmult_le_pos.
    + left. apply exp_pos.
    + left. apply powerRZ_lt. lra.
Qed.

Lemma ln_2_bounds : 0 < ln 2 < 1.
Proof.
  split.
  - rewrite <- ln_1. apply ln_increasing; lra.
  - rewrite <- (ln_exp 1). apply ln_increasing; [lra |].
    pose proof (exp_ineq1 1). lra.
Qed.

Lemma pow_2_le_exp (n : nat) : 2 ^ n <= exp (INR n).
Proof.
  induction n as [| n IH].
  - simpl. rewrite exp_0. lra.
  - rewrite S_INR, exp_plus. simpl pow.
    pose proof (exp_ineq1 1). pose proof (exp_pos (INR n)).
    assert (H2 : 0 <= 2 ^ n) by (apply pow_le; lra).
    nra.
Qed.

(** Underflow: the exponential of -200 is exactly 0 in float32. *)
Lemma f32_exp_underflow : F32.exp (F32.of_Z (-200)) = F32.zero.
Proof.
  change (F32.of_Z (-200)) with (S754_finite true 13107200 (-16)).
  unfold F32.exp.
  assert (Hr : F32.to_R (S754_finite true 13107200 (-16)) = -200)
    by (unfold F32.to_R; simpl; lra).
  rewrite Hr. unfold F32.round_pos.
  set (x := exp (-200)).
  assert (Hx : 0 < x) by apply exp_pos.
  assert (Hmag : (F32.mag2 x < -200)%Z).
  { unfold F32.mag2, x. rewrite ln_exp.
    destruct (base_Int_part (-200 / ln 2)) as [Hle _].
    destruct ln_2_bounds as [Hl0 Hl1].
    assert (Hq : -200 / ln 2 < -200).
    { apply Rmult_lt_reg_r with (ln 2); [exact Hl0 |].
      unfold Rdiv. rewrite Rmult_assoc, Rinv_l by lra. nra. }
    apply lt_IZR. lra. }
  assert (He : fexp F32.prec F32.emax (F32.mag2 x + 1) = (-149)%Z)
    by (unfold fexp, emin, F32.prec, F32.emax; lia).
  rewrite He.
  assert (Hsmall : 0 <= x * powerRZ 2 (- -149) < 1 / 2).
  { change (- -149)%Z with (Z.of_nat 149). rewrite <- pow_powerRZ.
    assert (Hp : 0 < 2 ^ 149) by (apply pow_lt; lra).
    split; [nra |].
    assert (Hx200 : x * exp (INR 200) = 1).
    { unfold x. rewrite <- exp_plus.
      replace (-200 + INR 200) with 0 by (simpl; lra). apply exp_0. }
    pose proof (pow_2_le_exp 200) as H200.
    replace (2 ^ 200) with (2 ^ 149 * 2 ^ 51) in H200
      by (rewrite <- pow_add; reflexivity).
    assert (H51 : 4 <= 2 ^ 51).
    { change 51%nat with (2 + 49)%nat. rewrite pow_add.
      assert (1 <= 2 ^ 49) by (apply pow_R1_Rle; lra). simpl. nra. }
    assert (Hx4 : x * (2 ^ 149 * 4) <= 1).
    { rewrite <- Hx200. apply Rmult_le_compat_l; [lra |]. nra. }
    nra. }
  rewrite (rint_small _ Hsmall). reflexivity.
Qed.

(** ** The shape of the float32 runs *)

Section F32Runs.

Context {Rng : Type}.
Variable draw : Rng -> string -> F32.Dist -> F32.float32 * Rng.

Lemma f32_run_bind {A B : Type} (m : F32.Model A) (f : A -> F32.Model B) st :
  F32.run draw (F32.bind m f) st =
  let (a, st') := F32.run draw m st in F32.run draw (f a) st'.
Proof.
  revert st; induction m as [a | name fn k IH | name value k IH];
    intros st; simpl.
  - reflexivity.
  - destruct (draw (F32.rng st) name fn) as [v rng']. apply IH.
  - apply IH.
Qed.

(** A scan of [sv_ht_scan] appends one [h_t] sample site per element and
    emits the values drawn at them. *)
Lemma f32_run_scan_sv_ht_scan sv_mu phi sv_sigma2_eta (xs : list F32.float32) :
  forall h st,
  exists sites hs s',
    F32.run draw (F32.scan (F32.sv_ht_scan sv_mu phi sv_sigma2_eta) h xs) st =
    ((last hs h, hs), F32.mkHost s' (F32.trace st ++ sites)) /\
    length hs = length xs /\
    (forall tl, F32.sample_values "h_t" (sites ++ tl) =
                hs ++ F32.sample_values "h_t" tl).
Proof.
  induction xs as [| x xs IH]; intros h st.
  - exists [], [], (F32.rng st). simpl. rewrite app_nil_r.
    destruct st; repeat split.
  - simpl. destruct (draw (F32.rng st) _ _) as [v s1].
    rewrite f32_run_bind.
    match goal with
    | |- context [F32.run draw (F32.scan _ v xs) ?st1] =>
        destruct (IH v st1) as (sites & hs & s' & Hrun & Hlen & Hvals)
    end.
    rewrite Hrun. simpl.
    eexists (_ :: sites), (v :: hs), s'. split; [| split].
    + rewrite last_cons_default, <- app_assoc. reflexivity.
    + simpl. congruence.
    + intros tl. simpl. now rewrite Hvals.
Qed.

(** The run of the float32 [stochastic_volatility]. *)
Lemma f32_stochastic_volatility_run n_timesteps s :
  exists sv_phi sv_sigma2_eta sv_mu h_0 sites hs s',
    F32.exec draw (F32.stochastic_volatility n_timesteps) s =
    (F32.jnp_exp hs,
     F32.mkHost s'
       (F32.SampleSite "sv_phi"
          (F32.Beta (F32.of_py (F32.py_float 5 1))
                    (F32.of_py (F32.py_float 15 10))) sv_phi
        :: F32.SampleSite "sv_sigma2_eta"
             (F32.Gamma (F32.of_py (F32.py_float 5 10))
                        (F32.of_py (F32.py_mul (F32.py_float 5 10)
                                               (F32.py_float 1 1))))
             sv_sigma2_eta
        :: F32.SampleSite "sv_mu"
             (F32.Normal (F32.of_py (F32.py_float 0 1))
                         (F32.jnp_sqrt (F32.of_py (F32.py_float 1 1)))) sv_mu
        :: F32.SampleSite "h_0" (F32.h_0_dist sv_phi sv_sigma2_eta sv_mu) h_0
        :: sites ++ [F32.DeterministicSite "sigma2" (F32.jnp_exp hs)])) /\
    sv_phi = fst (draw s "sv_phi"
                    (F32.Beta (F32.of_py (F32.py_float 5 1))
                              (F32.of_py (F32.py_float 15 10)))) /\
    length hs = n_timesteps /\
    F32.sample_values "h_t"
      (sites ++ [F32.DeterministicSite "sigma2" (F32.jnp_exp hs)]) = hs.
Proof.
  unfold F32.exec. cbn [F32.stochastic_volatility F32.bind F32.sample F32.run
                        F32.rng F32.trace app].
  destruct (draw s _ _) as [sv_phi s1]. cbn [F32.run F32.rng F32.trace app].
  destruct (draw s1 _ _) as [sv_sigma2_eta s2].
  cbn [F32.run F32.rng F32.trace app].
  destruct (draw s2 _ _) as [sv_mu s3]. cbn [F32.run F32.rng F32.trace app].
  destruct (draw s3 _ _) as [h_0 s4]. cbn [F32.run F32.rng F32.trace app].
  rewrite f32_run_bind.
  match goal with
  | |- context [F32.run draw (F32.scan ?f ?h ?xs) ?st] =>
      destruct (f32_run_scan_sv_ht_scan sv_mu (F32.sv_phi_trans sv_phi)
                  sv_sigma2_eta xs h st)
        as (sites & hs & s' & Hrun & Hlen & Hvals)
  end.
  rewrite Hrun.
  cbn [F32.deterministic F32.bind F32.run F32.rng F32.trace app fst snd].
  exists sv_phi, sv_sigma2_eta, sv_mu, h_0, sites, hs, s'.
  split; [reflexivity |]. split; [reflexivity |]. split.
  - rewrite Hlen. apply repeat_length.
  - rewrite Hvals. apply app_nil_r.
Qed.

End F32Runs.

(** ** The claims that depend on the arithmetic *)

Section F32Claims.

Context {Rng : Type}.
Variable draw : Rng -> string -> F32.Dist -> F32.float32 * Rng.

(** C1, as amended.  For every [n_timesteps >= 1], [stochastic_volatility]
    returns a sequence of exactly [n_timesteps] elements in chronological
    order, the [t]-th being the float32 exponential of the [t]-th state
    drawn; when no state is a NaN no element is negative.  An element can be
    exactly zero: the exponential underflows. *)
Theorem f32_stochastic_volatility_length_nonneg (n_timesteps : nat) (s : Rng) :
  (1 <= n_timesteps)%nat ->
  let sigma2 := F32.result_of draw (F32.stochastic_volatility n_timesteps) s in
  let tr := F32.trace_of draw (F32.stochastic_volatility n_timesteps) s in
  length sigma2 = n_timesteps /\
  sigma2 = map F32.exp (F32.sample_values "h_t" tr) /\
  (Forall (fun h_t => h_t <> F32.nan) (F32.sample_values "h_t" tr) ->
   Forall (fun sigma2_t => F32.leb F32.zero sigma2_t = true) sigma2).
Proof.
  intros _.
  destruct (f32_stochastic_volatility_run draw n_timesteps s)
    as (sv_phi & sv_sigma2_eta & sv_mu & h_0 & sites & hs & s' &
        Hrun & _ & Hlen & Hvals).
  unfold F32.result_of, F32.trace_of. rewrite Hrun.
  cbn [fst snd F32.trace F32.sample_values String.eqb Ascii.eqb Bool.eqb andb].
  rewrite Hvals. unfold F32.jnp_exp. split; [| split].
  - now rewrite length_map.
  - reflexivity.
  - intros Hnan. apply Forall_map.
    apply (Forall_impl _ f32_exp_nonneg Hnan).
Qed.

(** C5, as amended.  [sv_phi] is drawn from [Beta 5.0 1.5]; the transform is
    [(sv_phi*2) - 1] in float32, which is exactly -1 at some [sv_phi]
    strictly between 0 and 1 (at 1e-10), so it does not keep (0,1) inside
    (-1,1); [h_0] is drawn from [Normal sv_mu (sqrt (sv_sigma2_eta /
    (1 - sv_phi_trans**2)))]. *)
Theorem f32_sv_phi_prior_and_initial_state (n_timesteps : nat) (s : Rng) :
  let tr := F32.trace_of draw (F32.stochastic_volatility n_timesteps) s in
  let a_phi := F32.of_py (F32.py_float 5 1) in
  let b_phi := F32.of_py (F32.py_float 15 10) in
  let sv_phi := F32.sample_value "sv_phi" tr in
  let sv_sigma2_eta := F32.sample_value "sv_sigma2_eta" tr in
  let sv_mu := F32.sample_value "sv_mu" tr in
  let sv_phi_trans := F32.sub (F32.mul sv_phi F32.two) F32.one in
  (F32.lookup_sample "sv_phi" tr = Some (F32.Beta a_phi b_phi, sv_phi) /\
   sv_phi = fst (draw s "sv_phi" (F32.Beta a_phi b_phi))) /\
  F32.lookup_sample "h_0" tr =
    Some (F32.Normal sv_mu
            (F32.jnp_sqrt
               (F32.div sv_sigma2_eta
                  (F32.sub F32.one (F32.mul sv_phi_trans sv_phi_trans)))),
          F32.sample_value "h_0" tr) /\
  (let tiny := F32.of_py (F32.py_float 1 10000000000) in
   F32.ltb F32.zero tiny = true /\ F32.ltb tiny F32.one = true /\
   F32.sub (F32.mul tiny F32.two) F32.one = F32.of_Z (-1)).
Proof.
  destruct (f32_stochastic_volatility_run draw n_timesteps s)
    as (sv_phi & sv_sigma2_eta & sv_mu & h_0 & sites & hs & s' &
        Hrun & Hphi & _ & _).
  unfold F32.trace_of. rewrite Hrun. cbn [snd F32.trace].
  unfold F32.sample_value.
  cbn [F32.lookup_sample String.eqb Ascii.eqb Bool.eqb andb].
  split; [split; [reflexivity | exact Hphi] |].
  split; [reflexivity |].
  repeat split; vm_compute; reflexivity.
Qed.


End F32Claims.

(** ** The same expressions in exact arithmetic *)

(** Over the real numbers the transform maps (0,1) onto (-1,1), the
    denominator is strictly positive there, and the variance of [h_0] is the
    only [v] with [v = sv_phi_trans^2 * v + sv_sigma2_eta]; rounding is what
    takes these away from the float32 models. *)
Lemma sv_phi_trans_exact_arithmetic :
  (forall x, 0 < x < 1 -> -1 < sv_phi_trans x < 1) /\
  (forall y, -1 < y < 1 -> exists x, 0 < x < 1 /\ sv_phi_trans x = y) /\
  (forall x eta v, 0 < x < 1 ->
     v = (sv_phi_trans x) ^ 2 * v + eta <->
     v = eta / stationary_denominator x).
Proof.
  split; [| split].
  - intros x Hx. unfold sv_phi_trans. lra.
  - intros y Hy. exists ((y + 1) / 2). unfold sv_phi_trans. split; lra.
  - intros x eta v Hx.
    destruct (stationary_denominator_range x Hx) as [Hd _].
    unfold stationary_denominator in *.
    set (t := sv_phi_trans x) in *. split.
    + intros Hv. apply Rmult_eq_reg_r with (1 - t ^ 2); [| lra].
      unfold Rdiv. rewrite Rmult_assoc, Rinv_l by lra. lra.
    + intros ->. field. lra.
Qed.

(** ** Runs that contradict the claims as they were stated *)

(** C1.  With every draw in its support, the state [h_t = -200] gives the
    variance 0: the element returned is not strictly positive. *)
Lemma f32_strictly_positive_counterexample :
  let draw := F32.table_draw (F32.of_py (F32.py_float 5 10))
                             (F32.of_Z (-200)) in
  let sigma2 := F32.result_of draw (F32.stochastic_volatility 1) tt in
  F32.sample_values "h_t"
    (F32.trace_of draw (F32.stochastic_volatility 1) tt) = [F32.of_Z (-200)] /\
  sigma2 = [F32.zero] /\
  ~ Forall (fun sigma2_t => F32.ltb F32.zero sigma2_t = true) sigma2.
Proof.
  cbv zeta.
  assert (Hres : F32.result_of
                   (F32.table_draw (F32.of_py (F32.py_float 5 10))
                                   (F32.of_Z (-200)))
                   (F32.stochastic_volatility 1) tt = [F32.zero]).
  { change ([F32.exp (F32.of_Z (-200))] = [F32.zero]).
    now rewrite f32_exp_underflow. }
  split; [reflexivity |]. split; [exact Hres |].
  rewrite Hres. intros H. inversion H as [| x l Hx _]. discriminate Hx.
Qed.

(** C5.  The float32 number nearest to 1e-10 lies strictly between 0 and 1
    and its transform is exactly -1, which is not above -1. *)
Lemma f32_sv_phi_trans_counterexample :
  let sv_phi := F32.of_py (F32.py_float 1 10000000000) in
  F32.ltb F32.zero sv_phi = true /\ F32.ltb sv_phi F32.one = true /\
  F32.sv_phi_trans sv_phi = F32.of_Z (-1) /\
  F32.ltb (F32.of_Z (-1)) (F32.sv_phi_trans sv_phi) = false.
Proof. repeat split; vm_compute; reflexivity. Qed.


(** ** The amended claims at concrete runs *)

Lemma f32_stochastic_volatility_length_nonneg_witness :
  let draw := F32.table_draw (F32.of_py (F32.py_float 5 10))
                             (F32.of_Z (-200)) in
  let sigma2 := F32.result_of draw (F32.stochastic_volatility 5) tt in
  let tr := F32.trace_of draw (F32.stochastic_volatility 5) tt in
  (1 <= 5)%nat /\
  Forall (fun h_t => h_t <> F32.nan) (F32.sample_values "h_t" tr) /\
  length sigma2 = 5%nat /\
  sigma2 = map F32.exp (F32.sample_values "h_t" tr) /\
  Forall (fun sigma2_t => F32.leb F32.zero sigma2_t = true) sigma2.
Proof.
  cbv zeta.
  assert (Hn : (1 <= 5)%nat) by lia.
  assert (Hnan : Forall (fun h_t => h_t <> F32.nan)
                   (F32.sample_values "h_t"
                      (F32.trace_of
                         (F32.table_draw (F32.of_py (F32.py_float 5 10))
                                         (F32.of_Z (-200)))
                         (F32.stochastic_volatility 5) tt)))
    by (repeat constructor; discriminate).
  destruct (f32_stochastic_volatility_length_nonneg
              (F32.table_draw (F32.of_py (F32.py_float 5 10))
                              (F32.of_Z (-200))) 5 tt Hn)
    as (Hlen & Hval & Hpos).
  split; [exact Hn |]. split; [exact Hnan |]. split; [exact Hlen |].
  split; [exact Hval | exact (Hpos Hnan)].
Defined.

